(** * The Smart Auto-Exit Monitor of funding-arb-bot

    A shallow embedding of [market_data_service/exchange.py],
    [market_data_service/exit_monitor.py] and [market_data_service/main.py],
    and the properties of the exit monitor that hold of them.

    The three files touch the outside world only through [logging],
    [asyncio.sleep] and [os.getenv]; the two ccxt clients are constructed and
    never called. A coroutine is embedded as a function from the world before
    the call to an outcome (the awaited value, or the exception that escapes)
    and the world after it; [await] is sequencing, since one task runs at a
    time. *)

From Stdlib Require Import ZArith String List Bool Lia.
From stdpp Require Import base option list gmap strings.

Local Open Scope Z_scope.
Local Open Scope string_scope.
Local Open Scope list_scope.

(** ** The outside world *)

(** The two venues of [BinanceBybitExecutionClient]. *)
Inductive Venue := Binance | Bybit.

(** The levels [logging.info] and [logging.error] log at. [main.py] sets the
    root logger to INFO, so records of both levels are emitted. *)
Inductive Level := INFO | ERROR.

(** Modelled from the spec: the side a leg holds (section 3); the source names
    no side. *)
Inductive Side := Long | Short.

(** Modelled from the spec: what a venue client can be asked, the capability
    set of section 6 ([submitReduceOnlyOrder], [getPositionSize],
    [getFundingRate]); the source calls no method of its ccxt clients. *)
Inductive VenueRequest :=
| CreateOrder (symbol : string) (side : Side) (amount : Z) (reduceOnly : bool)
| FetchPosition (symbol : string)
| FetchFundingRate (symbol : string).

Module Spec.

(** Modelled from the spec: the states of a position (section 3); the source
    declares no position type and never parses the trades file. *)
Inductive PositionState := OPEN | CLOSING | CLOSED | CLOSE_FAILED_PARTIAL.

(** Modelled from the spec: the close status of one leg (section 3), which the
    source does not declare. *)
Inductive LegStatus := PENDING | CONFIRMED | FAILED.

(** Modelled from the spec: the position record of section 3, which the source
    does not declare. The per-venue [legCloseStatus] is one field per leg. *)
Record HedgePosition := {
  symbol : string;
  venueA : Venue;
  sideA : Side;
  venueB : Venue;
  sideB : Side;
  openedAt : Z;
  entryFundingBias : Z;
  state : PositionState;
  legCloseStatusA : LegStatus;
  legCloseStatusB : LegStatus
}.

(** Modelled from the spec: the configuration options of section 6 (the
    source declares none of them and reads none). *)
Record Config := {
  holdingWindowSeconds : Z;
  tickIntervalSeconds : Z;
  maxRetryAttempts : Z;
  retryBackoffBaseSeconds : Z;
  fundingFlipDebounceTicks : Z
}.

End Spec.

(** Modelled from the spec: the persisted ledger format of section 6, a mapping
    from position identifier to position record. *)
Abbreviation Ledger := (gmap string Spec.HedgePosition).

(** Everything the program does to the outside world, in the order it does it. *)
Inductive Event :=
| EvLog (level : Level) (msg : string)
| EvSleep (seconds : Z)
| EvVenueCall (venue : Venue) (request : VenueRequest)
| EvFileRead (path : string)
| EvFileWrite (path : string) (content : Ledger).

(** What the program can read of the outside world. Funding rates and position
    sizes are in the venue's smallest unit, so that only their sign and their
    being zero matter. *)
Record Env := {
  clock : Z;
  environ : gmap string string;
  config : Spec.Config;
  files : gmap string Ledger;
  funding_rate : Venue -> string -> Z;
  position_size : Venue -> string -> Z
}.

(** The world of the program: the outside as it is now, what the outside will
    be each time the program wakes from a sleep (it changes while the program
    is suspended; when [later] runs out, only the clock moves), and what the
    program has done so far. *)
Record World := {
  env : Env;
  later : list Env;
  trace : list Event
}.

(** ** Python values, exceptions and coroutines *)

Inductive PyVal :=
| PyNone
| PyBool (b : bool)
| PyInt (z : Z)
| PyStr (s : string).

(** A raised exception: its class name, whether the class derives from
    [Exception] (KeyboardInterrupt, SystemExit and asyncio.CancelledError derive
    from BaseException only), the text [str(e)] gives, and, for an object whose
    [__str__] fails, the exception that [str(e)] raises instead of giving a
    text. *)
#[local] Unset Elimination Schemes.

Inductive PyExn := {
  exn_class : string;
  exn_is_Exception : bool;
  exn_str : string;
  exn_str_raises : option PyExn
}.

#[local] Set Elimination Schemes.

Inductive Outcome (A : Type) :=
| Ok (a : A)
| Raise (e : PyExn).

Arguments Ok {A} a.
Arguments Raise {A} e.

Definition M (A : Type) : Type := World -> Outcome A * World.

Definition ret {A : Type} (a : A) : M A := fun w => (Ok a, w).

Definition raise {A : Type} (e : PyExn) : M A := fun w => (Raise e, w).

Definition bind {A B : Type} (m : M A) (k : A -> M B) : M B :=
  fun w =>
    match m w with
    | (Ok a, w') => k a w'
    | (Raise e, w') => (Raise e, w')
    end.

Declare Scope py_scope.
Delimit Scope py_scope with py.

Notation "x <- m ;; k" := (bind m (fun x => k))
  (at level 100, m at next level, right associativity) : py_scope.
Notation "m ;; k" := (bind m (fun _ => k))
  (at level 100, right associativity) : py_scope.

Local Open Scope py_scope.

(** [try: body except Exception as e: handler(e)]. An exception whose class
    does not derive from [Exception] is not caught. What the body did to the
    world before it raised stays done. *)
Definition try_except_Exception {A : Type} (body : M A) (handler : PyExn -> M A) : M A :=
  fun w =>
    match body w with
    | (Ok a, w') => (Ok a, w')
    | (Raise e, w') =>
        if exn_is_Exception e then handler e w' else (Raise e, w')
    end.

Definition emit (ev : Event) (w : World) : World :=
  {| env := env w; later := later w; trace := trace w ++ [ev] |}.

Definition advance_clock (seconds : Z) (e : Env) : Env :=
  {| clock := clock e + seconds;
     environ := environ e;
     config := config e;
     files := files e;
     funding_rate := funding_rate e;
     position_size := position_size e |}.

(** The outside the program wakes up to after a sleep. *)
Definition woken (seconds : Z) (w : World) : Env :=
  match later w with
  | e :: _ => e
  | [] => advance_clock seconds (env w)
  end.

Definition slept (seconds : Z) (w : World) : World :=
  {| env := woken seconds w;
     later := tail (later w);
     trace := trace w ++ [EvSleep seconds] |}.

(** [str(e)], as the f-string [f"...{e}"] calls it: the text of the exception,
    or what its [__str__] raises. *)
Definition py_str (e : PyExn) : M string :=
  match exn_str_raises e with
  | Some raised => raise raised
  | None => ret (exn_str e)
  end.

(** [logging.info(msg)] and [logging.error(msg)]: the logging module reports a
    failing handler on stderr and does not raise. *)
Definition logging_info (msg : string) : M unit :=
  fun w => (Ok tt, emit (EvLog INFO msg) w).

Definition logging_error (msg : string) : M unit :=
  fun w => (Ok tt, emit (EvLog ERROR msg) w).

(** [await asyncio.sleep(seconds)], the one place where the coroutines of the
    source are suspended. The sleep is taken to run to its end: stopping the
    process by cancelling the task while it sleeps is outside what is stated
    here, and nothing below says how the loop ends under a cancelled sleep. *)
Definition asyncio_sleep (seconds : Z) : M unit :=
  fun w => (Ok tt, slept seconds w).

(** [os.getenv(name)]: [None] when the variable is not set. *)
Definition os_getenv (name : string) : M (option string) :=
  fun w => (Ok (environ (env w) !! name), w).

(** ** exchange.py *)

(** A ccxt exchange object as its constructor is given it. Constructing one
    sends nothing to the venue. *)
Record CcxtClient := {
  ccxt_class : string;
  ccxt_venue : Venue;
  apiKey : option string;
  secret : option string;
  enableRateLimit : bool;
  defaultType : string
}.

Record BinanceBybitExecutionClient := {
  binance : CcxtClient;
  bybit : CcxtClient
}.

Definition BinanceBybitExecutionClient_init : M BinanceBybitExecutionClient :=
  binance_key <- os_getenv "BINANCE_API_KEY" ;;
  binance_secret <- os_getenv "BINANCE_API_SECRET" ;;
  bybit_key <- os_getenv "BYBIT_API_KEY" ;;
  bybit_secret <- os_getenv "BYBIT_API_SECRET" ;;
  ret {| binance := {| ccxt_class := "binanceusdm";
                       ccxt_venue := Binance;
                       apiKey := binance_key;
                       secret := binance_secret;
                       enableRateLimit := true;
                       defaultType := "future" |};
         bybit := {| ccxt_class := "bybit";
                     ccxt_venue := Bybit;
                     apiKey := bybit_key;
                     secret := bybit_secret;
                     enableRateLimit := true;
                     defaultType := "swap" |} |}.

Record Exchange := {
  client : BinanceBybitExecutionClient
}.

Definition Exchange_init (client : BinanceBybitExecutionClient) : Exchange :=
  {| client := client |}.

(** [Exchange.close_hedged_position]: the body is the one [logging.info] call;
    the two comments around it stand where the orders would be sent. A
    coroutine that falls off its end gives [None] to whoever awaits it. *)
Definition Exchange_close_hedged_position (self : Exchange) (symbol : string) : M PyVal :=
  logging_info ("Executing exit for " +:+ symbol) ;;
  ret PyNone.

(** ** exit_monitor.py *)

Record ExitMonitor := {
  exchange : Exchange;
  trades_file : string
}.

Definition ExitMonitor_init (exchange : Exchange) : ExitMonitor :=
  {| exchange := exchange;
     trades_file := "apps/backend/data/active_trades.json" |}.

(** [ExitMonitor._tick]: one [logging.info] call under a comment that stands
    where the exit conditions would be checked. *)
Definition ExitMonitor__tick (self : ExitMonitor) : M PyVal :=
  logging_info "Checking trades for exit conditions..." ;;
  ret PyNone.

(** One turn of the [while True] of [run_forever]: the tick under
    [try ... except Exception as e], then the sleep. [self._tick] is looked up
    on the instance at every turn, so the turn is stated for any tick. The
    handler formats [e] into its message before it logs, outside any [try]: what
    [str(e)] raises leaves the handler and the loop. *)
Definition guarded_tick (tick : M PyVal) : M unit :=
  try_except_Exception
    (tick ;; ret tt)
    (fun e =>
       text <- py_str e ;;
       logging_error ("Error in monitor tick: " +:+ text)).

Definition run_forever_turn (tick : M PyVal) : M unit :=
  guarded_tick tick ;;
  asyncio_sleep 60.

(** The loop has no [break] and no [return]: it is left only by an exception
    that escapes a turn. [run_forever_upto tick n] runs the first [n] turns:
    [Ok tt] says that the loop is about to start turn [n + 1], [Raise e] that
    [e] ended it during one of the first [n]. *)
Fixpoint run_forever_upto (tick : M PyVal) (n : nat) : M unit :=
  match n with
  | O => ret tt
  | S k => run_forever_turn tick ;; run_forever_upto tick k
  end.

Definition ExitMonitor_run_forever_upto (self : ExitMonitor) (n : nat) : M unit :=
  run_forever_upto (ExitMonitor__tick self) n.

(** ** main.py *)

(** [main], with the first [n] turns of the loop it never leaves. [environ] is
    the environment after [load_dotenv()]. *)
Definition main_upto (n : nat) : M unit :=
  execution_client <- BinanceBybitExecutionClient_init ;;
  let exchange := Exchange_init execution_client in
  let monitor := ExitMonitor_init exchange in
  ExitMonitor_run_forever_upto monitor n.

(** ** Reading a trace *)

Definition is_venue_call (ev : Event) : bool :=
  match ev with
  | EvVenueCall _ _ => true
  | _ => false
  end.

Definition is_order (ev : Event) : bool :=
  match ev with
  | EvVenueCall _ (CreateOrder _ _ _ _) => true
  | _ => false
  end.

Definition is_file_read (ev : Event) : bool :=
  match ev with
  | EvFileRead _ => true
  | _ => false
  end.

Definition is_file_write (ev : Event) : bool :=
  match ev with
  | EvFileWrite _ _ => true
  | _ => false
  end.

(** The record [Exchange.close_hedged_position] logs first thing, whatever the
    symbol: a trace without one holds no call of it. *)
Definition is_exit_log (ev : Event) : bool :=
  match ev with
  | EvLog INFO msg => String.prefix "Executing exit for " msg
  | _ => false
  end.

Definition sleeps_of (evs : list Event) : list Z :=
  flat_map (fun ev => match ev with EvSleep s => [s] | _ => [] end) evs.

(** The events between the world [w] and a later world [w']. *)
Definition new_events (w w' : World) : list Event :=
  drop (length (trace w)) (trace w').

Definition is_exit_action (ev : Event) : bool :=
  is_order ev || is_exit_log ev.

(** The world with the outside moved on to [e]: what was done stays done. *)
Definition with_env (e : Env) (w : World) : World :=
  {| env := e; later := later w; trace := trace w |}.

(** ** The ledger *)

Definition set_file (path : string) (content : Ledger) (e : Env) : Env :=
  {| clock := clock e;
     environ := environ e;
     config := config e;
     files := <[path := content]> (files e);
     funding_rate := funding_rate e;
     position_size := position_size e |}.

Definition LedgerIOError (path : string) : PyExn :=
  {| exn_class := "LedgerIOError"; exn_is_Exception := true; exn_str := path; exn_str_raises := None |}.

Section HedgeLedger.

(** The unique identifier a position is saved under. *)
Variable position_id : Spec.HedgePosition -> string.

(** Modelled from the spec: [HedgeLedger.load] of section 4.4, which is not among
    the sources (they hold the path of the trades file and nothing that reads
    it). It gives the records of the stored mapping, and a missing file is a
    [LedgerIOError]. *)
Definition HedgeLedger_load (path : string) : M Ledger :=
  fun w =>
    match files (env w) !! path with
    | Some content => (Ok content, emit (EvFileRead path) w)
    | None => (Raise (LedgerIOError path), emit (EvFileRead path) w)
    end.

(** Modelled from the spec: [HedgeLedger.save] of section 4.4, which is not among
    the sources. An upsert by the position's identifier that replaces the whole
    record; the first save creates the file. *)
Definition HedgeLedger_save (path : string) (position : Spec.HedgePosition) : M unit :=
  fun w =>
    let content := <[position_id position := position]> (default ∅ (files (env w) !! path)) in
    (Ok tt,
     {| env := set_file path content (env w);
        later := later w;
        trace := trace w ++ [EvFileWrite path content] |}).

End HedgeLedger.

(** ** The unwind of the spec *)

Module UnwindResult.

(** Modelled from the spec: the result of [HedgeUnwinder.unwind], section 4.2,
    [UnwindResult{CLOSED, PARTIAL}]; the source has no unwind that returns
    one. *)
Inductive t := CLOSED | PARTIAL.

End UnwindResult.

(** Modelled from the spec: how the submission of one leg's close order ended
    (sections 4.2 and 7): acknowledged, failed on transient errors until the
    retry budget was used up, rejected for good, or not sent because the leg
    was already CONFIRMED. The source sends no order. *)
Inductive Submission := Acked | Exhausted | Rejected | NotSent.

(** Modelled from the spec: the side of the order that closes a leg (section
    4.2, a reduce-only order that flattens the leg); the source sends no
    order. *)
Definition closing_side (side : Side) : Side :=
  match side with
  | Long => Short
  | Short => Long
  end.

(** The record [p] with its state and the close status of its legs replaced. *)
Definition with_outcome
    (st : Spec.PositionState) (statusA statusB : Spec.LegStatus)
    (p : Spec.HedgePosition) : Spec.HedgePosition :=
  {| Spec.symbol := Spec.symbol p;
     Spec.venueA := Spec.venueA p;
     Spec.sideA := Spec.sideA p;
     Spec.venueB := Spec.venueB p;
     Spec.sideB := Spec.sideB p;
     Spec.openedAt := Spec.openedAt p;
     Spec.entryFundingBias := Spec.entryFundingBias p;
     Spec.state := st;
     Spec.legCloseStatusA := statusA;
     Spec.legCloseStatusB := statusB |}.

Section HedgeUnwinder.

(** The identifier and the file the ledger keeps a position under. *)
Variable position_id : Spec.HedgePosition -> string.
Variable ledger_path : string.

(** How a venue answers a request it is sent: it acknowledges, or raises an
    error, and may change the outside in doing so. *)
Variable venue_answer : Venue -> VenueRequest -> M unit.

(** Which venue errors are transient; the others are definitive (section 6). *)
Variable is_transient : PyExn -> bool.

(** The dust tolerance of the reconciliation (section 4.2). *)
Variable dust : Z.

(** What unwind does with two reconciled legs of which section 4.2 says
    nothing (neither both CONFIRMED nor one CONFIRMED and one FAILED). *)
Variable unspecified_outcome :
  Spec.HedgePosition -> Spec.LegStatus -> Spec.LegStatus -> M UnwindResult.t.

(** Modelled from the spec: [getPositionSize] of the venue client (section 6),
    which the source never calls. *)
Definition get_position_size (venue : Venue) (symbol : string) : M Z :=
  fun w =>
    (Ok (position_size (env w) venue symbol),
     emit (EvVenueCall venue (FetchPosition symbol)) w).

(** Modelled from the spec: the delay before retry [attempt + 1], the
    exponential backoff of section 4.2 on the configured base
    [retryBackoffBaseSeconds]; the source retries nothing. *)
Definition backoff (attempt : nat) : M unit :=
  fun w =>
    asyncio_sleep
      (Spec.retryBackoffBaseSeconds (config (env w)) * 2 ^ Z.of_nat attempt) w.

(** Modelled from the spec: the submission of one leg's order with its retries
    (sections 4.2 and 7), which the source does not have. [budget] attempts
    remain; a transient error is retried after the backoff while the budget
    lasts, a definitive one is not retried. *)
Fixpoint submit_with_retries
    (budget attempt : nat) (venue : Venue) (request : VenueRequest) : M Submission :=
  match budget with
  | O => ret Exhausted
  | S remaining =>
      fun w =>
        match venue_answer venue request (emit (EvVenueCall venue request) w) with
        | (Ok _, w1) => (Ok Acked, w1)
        | (Raise e, w1) =>
            if is_transient e then
              match remaining with
              | O => (Ok Exhausted, w1)
              | S _ =>
                  (backoff attempt ;;
                   submit_with_retries remaining (S attempt) venue request) w1
              end
            else (Ok Rejected, w1)
        end
  end.

(** Modelled from the spec: the close of one leg (section 4.2), which the
    source does not have: no order for a leg already CONFIRMED; otherwise a
    reduce-only order of the size the venue reports for the leg, retried up to
    [maxRetryAttempts] times. *)
Definition close_leg
    (venue : Venue) (side : Side) (status : Spec.LegStatus) (symbol : string)
  : M Submission :=
  match status with
  | Spec.CONFIRMED => ret NotSent
  | _ =>
      size <- get_position_size venue symbol ;;
      fun w =>
        submit_with_retries
          (Z.to_nat (Spec.maxRetryAttempts (config (env w)))) 0 venue
          (CreateOrder symbol (closing_side side) (Z.abs size) true) w
  end.

(** Modelled from the spec: the reconciliation of one leg (section 4.2), which
    the source does not have. The leg is CONFIRMED when the venue reports a
    position within the dust tolerance, whatever its order reported; otherwise
    it is FAILED when its order was given up, and still PENDING when not. *)
Definition reconcile_leg
    (venue : Venue) (symbol : string) (submission : Submission) : M Spec.LegStatus :=
  size <- get_position_size venue symbol ;;
  ret (if Z.leb (Z.abs size) dust then Spec.CONFIRMED
       else match submission with
            | Exhausted | Rejected => Spec.FAILED
            | Acked | NotSent => Spec.PENDING
            end).

(** Modelled from the spec: the first steps of [HedgeUnwinder.unwind] (section
    4.2), which the source does not have: the position is persisted as CLOSING
    before any order, each leg is closed in turn, then both are reconciled. *)
Definition attempt_and_reconcile (p : Spec.HedgePosition)
  : M (Submission * Submission * Spec.LegStatus * Spec.LegStatus) :=
  HedgeLedger_save position_id ledger_path
    (with_outcome Spec.CLOSING (Spec.legCloseStatusA p) (Spec.legCloseStatusB p) p) ;;
  submissionA <- close_leg (Spec.venueA p) (Spec.sideA p)
                   (Spec.legCloseStatusA p) (Spec.symbol p) ;;
  submissionB <- close_leg (Spec.venueB p) (Spec.sideB p)
                   (Spec.legCloseStatusB p) (Spec.symbol p) ;;
  statusA <- reconcile_leg (Spec.venueA p) (Spec.symbol p) submissionA ;;
  statusB <- reconcile_leg (Spec.venueB p) (Spec.symbol p) submissionB ;;
  ret (submissionA, submissionB, statusA, statusB).

(** Modelled from the spec: the last step of [HedgeUnwinder.unwind] (section
    4.2), which the source does not have: both legs CONFIRMED give CLOSED, one
    CONFIRMED and one FAILED give CLOSE_FAILED_PARTIAL and PARTIAL, each
    persisted before the result is returned. *)
Definition settle
    (p : Spec.HedgePosition) (statusA statusB : Spec.LegStatus) : M UnwindResult.t :=
  match statusA, statusB with
  | Spec.CONFIRMED, Spec.CONFIRMED =>
      HedgeLedger_save position_id ledger_path
        (with_outcome Spec.CLOSED statusA statusB p) ;;
      ret UnwindResult.CLOSED
  | Spec.CONFIRMED, Spec.FAILED | Spec.FAILED, Spec.CONFIRMED =>
      HedgeLedger_save position_id ledger_path
        (with_outcome Spec.CLOSE_FAILED_PARTIAL statusA statusB p) ;;
      ret UnwindResult.PARTIAL
  | _, _ => unspecified_outcome p statusA statusB
  end.

(** Modelled from the spec: [HedgeUnwinder.unwind] of section 4.2, which is not
    among the sources ([Exchange.close_hedged_position] stands where it would
    be and sends no order). A position already CLOSED is left alone, with no
    venue call (section 8). *)
Definition unwind (p : Spec.HedgePosition) : M UnwindResult.t :=
  match Spec.state p with
  | Spec.CLOSED => ret UnwindResult.CLOSED
  | _ =>
      outcome <- attempt_and_reconcile p ;;
      settle p outcome.1.2 outcome.2
  end.

End HedgeUnwinder.

(** The position the ledger file [path] holds under [id] in the outside [e]. *)
Definition persisted (path id : string) (e : Env) : option Spec.HedgePosition :=
  files e !! path ≫= (.!! id).

(** The outside [e] with the position on [venue] flat. *)
Definition flattened (venue : Venue) (e : Env) : Env :=
  {| clock := clock e;
     environ := environ e;
     config := config e;
     files := files e;
     funding_rate := funding_rate e;
     position_size :=
       fun v symbol =>
         match venue, v with
         | Binance, Binance | Bybit, Bybit => 0
         | _, _ => position_size e v symbol
         end |}.

(** Two venues to try the unwind on: Binance fills every order and the leg is
    flat afterwards, Bybit times out on every request. *)
Definition filling_and_timing_out (venue : Venue) (request : VenueRequest) : M unit :=
  match venue with
  | Binance => fun w => (Ok tt, with_env (flattened Binance (env w)) w)
  | Bybit =>
      raise {| exn_class := "RequestTimeout";
               exn_is_Exception := true;
               exn_str := "bybit GET timed out";
               exn_str_raises := None |}
  end.

Definition timeout_is_transient (e : PyExn) : bool :=
  String.eqb (exn_class e) "RequestTimeout".

Definition hedge_id (p : Spec.HedgePosition) : string :=
  Spec.symbol p.

Definition nothing_specified
    (p : Spec.HedgePosition) (statusA statusB : Spec.LegStatus) : M UnwindResult.t :=
  ret UnwindResult.PARTIAL.

(** ** The conditions the spec states its exit rules in *)

(** Whether [content] holds a record of [symbol] in state CLOSING. *)
Definition records_closing (symbol : string) (content : Ledger) : bool :=
  existsb
    (fun kv =>
       String.eqb (Spec.symbol kv.2) symbol &&
       match Spec.state kv.2 with Spec.CLOSING => true | _ => false end)
    (map_to_list content).

(** Whether every order for [symbol] in [evs] comes after a write of the ledger
    that records the position as CLOSING. [persisted] says whether such a write
    came before [evs]. *)
Fixpoint orders_follow_closing (symbol : string) (persisted : bool) (evs : list Event) : bool :=
  match evs with
  | [] => true
  | EvVenueCall _ (CreateOrder s _ _ _) :: rest =>
      (negb (String.eqb s symbol) || persisted) && orders_follow_closing symbol persisted rest
  | EvFileWrite _ content :: rest =>
      orders_follow_closing symbol (persisted || records_closing symbol content) rest
  | _ :: rest => orders_follow_closing symbol persisted rest
  end.

(** The funding flip of section 4.1: the sign of the funding differential
    between the two legs, as the outside shows it, differs from the sign the
    position was entered on. *)
Definition observed_bias (p : Spec.HedgePosition) (e : Env) : Z :=
  Z.sgn (funding_rate e (Spec.venueA p) (Spec.symbol p)
         - funding_rate e (Spec.venueB p) (Spec.symbol p)).

Definition flip_observed (p : Spec.HedgePosition) (e : Env) : bool :=
  negb (Z.eqb (observed_bias p e) (Spec.entryFundingBias p)).

(** The time exit of section 4.1: the time the position has been held is at
    least the configured holding window. *)
Definition holding_time (p : Spec.HedgePosition) (e : Env) : Z :=
  clock e - Spec.openedAt p.

Definition window_elapsed (p : Spec.HedgePosition) (e : Env) : bool :=
  Z.leb (Spec.holdingWindowSeconds (config e)) (holding_time p e).

(** Whether a tick that took the world from [w] to [snd r] decided an exit: it
    returned something other than [None], or it sent an order or called
    [Exchange.close_hedged_position]. *)
Definition exit_decided (w : World) (r : Outcome PyVal * World) : bool :=
  match fst r with
  | Ok PyNone | Raise _ => existsb is_exit_action (new_events w (snd r))
  | Ok _ => true
  end.

(** ** A concrete setting *)

(** One hedge on BTC/USDT, long on Binance and short on Bybit, entered at
    1700000000 on a positive funding differential. *)
Definition btc_hedge : Spec.HedgePosition :=
  {| Spec.symbol := "BTC/USDT";
     Spec.venueA := Binance;
     Spec.sideA := Long;
     Spec.venueB := Bybit;
     Spec.sideB := Short;
     Spec.openedAt := 1700000000;
     Spec.entryFundingBias := 1;
     Spec.state := Spec.OPEN;
     Spec.legCloseStatusA := Spec.PENDING;
     Spec.legCloseStatusB := Spec.PENDING |}.

Definition ten_minute_config : Spec.Config :=
  {| Spec.holdingWindowSeconds := 600;
     Spec.tickIntervalSeconds := 30;
     Spec.maxRetryAttempts := 3;
     Spec.retryBackoffBaseSeconds := 1;
     Spec.fundingFlipDebounceTicks := 2 |}.

(** The outside at time [now], with the hedge in the trades file, the funding
    rates [rate_binance] and [rate_bybit] and the position sizes [size_binance]
    and [size_bybit] on BTC/USDT. *)
Definition outside (now rate_binance rate_bybit size_binance size_bybit : Z) : Env :=
  {| clock := now;
     environ := {[ "BINANCE_API_KEY" := "k1" ]};
     config := ten_minute_config;
     files := {[ "apps/backend/data/active_trades.json" := {[ "hedge-1" := btc_hedge ]} ]};
     funding_rate := fun v _ => match v with Binance => rate_binance | Bybit => rate_bybit end;
     position_size := fun v _ => match v with Binance => size_binance | Bybit => size_bybit end |}.

(** The world of a program that starts in the outside [e] and wakes from its
    sleeps to the outsides [next]. *)
Definition starting (e : Env) (next : list Env) : World :=
  {| env := e; later := next; trace := [] |}.

Definition fresh_world (e : Env) : World :=
  starting e [].

Definition the_client : BinanceBybitExecutionClient :=
  {| binance := {| ccxt_class := "binanceusdm";
                   ccxt_venue := Binance;
                   apiKey := Some "k1";
                   secret := None;
                   enableRateLimit := true;
                   defaultType := "future" |};
     bybit := {| ccxt_class := "bybit";
                 ccxt_venue := Bybit;
                 apiKey := None;
                 secret := None;
                 enableRateLimit := true;
                 defaultType := "swap" |} |}.

Definition the_monitor : ExitMonitor :=
  ExitMonitor_init (Exchange_init the_client).

(** A tick that cannot read the trades file. *)
Definition failing_tick : M PyVal :=
  raise {| exn_class := "FileNotFoundError";
           exn_is_Exception := true;
           exn_str := "[Errno 2] No such file or directory"; exn_str_raises := None |}.

(** An error whose [__str__] fails: [str(e)] raises a TypeError. *)
Definition unprintable_error : PyExn :=
  {| exn_class := "ValueError";
     exn_is_Exception := true;
     exn_str := "";
     exn_str_raises :=
       Some {| exn_class := "TypeError";
               exn_is_Exception := true;
               exn_str := "__str__ returned non-string (type int)";
               exn_str_raises := None |} |}.

(** A tick that is cancelled from outside. *)
Definition cancelled_tick : M PyVal :=
  raise {| exn_class := "CancelledError";
           exn_is_Exception := false;
           exn_str := ""; exn_str_raises := None |}.

(** A tick that takes 45 seconds. *)
Definition slow_tick : M PyVal :=
  fun w => (Ok PyNone, with_env (advance_clock 45 (env w)) w).

(** What one turn of the loop of [ExitMonitor] adds to the trace, and the world
    it leaves. *)
Definition turn_events : list Event :=
  [EvLog INFO "Checking trades for exit conditions..."; EvSleep 60].

Definition after_turn (w : World) : World :=
  slept 60 (emit (EvLog INFO "Checking trades for exit conditions...") w).

(** ** main.py, at import *)

(** [if parent_dir not in sys.path: sys.path.append(parent_dir)], run once when
    the module is imported. [parent_dir] is what [os.path] makes of the path of
    the file; [sys.path] is the list of directories modules are searched in,
    first to last. *)
Definition add_to_sys_path (parent_dir : string) (sys_path : list string) : list string :=
  if bool_decide (parent_dir ∈ sys_path) then sys_path else sys_path ++ [parent_dir].

(** The outside [e] with the environment variables set to [vars]. *)
Definition with_environ (vars : gmap string string) (e : Env) : Env :=
  {| clock := clock e;
     environ := vars;
     config := config e;
     files := files e;
     funding_rate := funding_rate e;
     position_size := position_size e |}.

(** The environment variables [BinanceBybitExecutionClient.__init__] reads. *)
Definition credential_variables : list string :=
  ["BINANCE_API_KEY"; "BINANCE_API_SECRET"; "BYBIT_API_KEY"; "BYBIT_API_SECRET"].

(** ** Ticks to try the loop on *)

(** What a turn adds to the trace when its tick raises the error [e] and does
    nothing else. *)
Definition failed_turn_events (e : PyExn) : list Event :=
  [EvLog ERROR ("Error in monitor tick: " +:+ exn_str e); EvSleep 60].

(** * Properties *)

(** ** Sequencing and traces *)

Ltac py_unfold :=
  unfold Exchange_close_hedged_position, ExitMonitor__tick, run_forever_turn,
    guarded_tick, try_except_Exception, py_str, asyncio_sleep, logging_info,
    logging_error, bind, ret, raise in *.

Lemma bind_ok {A B : Type} (m : M A) (k : A -> M B) (w w' : World) (a : A) :
  m w = (Ok a, w') -> bind m k w = k a w'.
Proof. intros H. unfold bind. now rewrite H. Qed.

Lemma bind_raise {A B : Type} (m : M A) (k : A -> M B) (w w' : World) (e : PyExn) :
  m w = (Raise e, w') -> bind m k w = (Raise e, w').
Proof. intros H. unfold bind. now rewrite H. Qed.

Lemma new_events_app (w w' : World) (evs : list Event) :
  trace w' = trace w ++ evs -> new_events w w' = evs.
Proof.
  intros H. unfold new_events. rewrite H.
  apply drop_app_length.
Qed.

Lemma new_events_emit (ev : Event) (w : World) :
  new_events w (emit ev w) = [ev].
Proof. now apply new_events_app. Qed.

Lemma advance_clock_0 (e : Env) : advance_clock 0 e = e.
Proof. destruct e. unfold advance_clock. simpl. f_equal. lia. Qed.

Lemma advance_clock_add (a b : Z) (e : Env) :
  advance_clock b (advance_clock a e) = advance_clock (a + b) e.
Proof. unfold advance_clock. simpl. f_equal. lia. Qed.

(** ** The two coroutines of the source, as equations *)

Lemma close_hedged_position_eq (self : Exchange) (symbol : string) (w : World) :
  Exchange_close_hedged_position self symbol w
  = (Ok PyNone, emit (EvLog INFO ("Executing exit for " +:+ symbol)) w).
Proof. reflexivity. Qed.

Lemma tick_eq (self : ExitMonitor) (w : World) :
  ExitMonitor__tick self w
  = (Ok PyNone, emit (EvLog INFO "Checking trades for exit conditions...") w).
Proof. reflexivity. Qed.

Lemma exit_log_of_close (symbol : string) :
  is_exit_log (EvLog INFO ("Executing exit for " +:+ symbol)) = true.
Proof.
  simpl. repeat (destruct (Ascii.ascii_dec _ _); [| congruence]).
  now destruct symbol.
Qed.

(** Every call of [Exchange.close_hedged_position] shows in the trace. *)
Lemma close_hedged_position_shows (self : Exchange) (symbol : string) (w : World) :
  existsb is_exit_log (new_events w (snd (Exchange_close_hedged_position self symbol w))) = true.
Proof.
  rewrite close_hedged_position_eq. simpl snd. rewrite new_events_emit.
  cbn [existsb]. now rewrite exit_log_of_close.
Qed.

Example client_of_environment :
  fst (BinanceBybitExecutionClient_init (fresh_world (outside 0 0 0 0 0))) = Ok the_client.
Proof. vm_compute. reflexivity. Qed.

Example tick_example :
  ExitMonitor__tick the_monitor (fresh_world (outside 0 0 0 0 0))
  = (Ok PyNone,
     {| env := outside 0 0 0 0 0;
        later := [];
        trace := [EvLog INFO "Checking trades for exit conditions..."] |}).
Proof. reflexivity. Qed.

(** ** One turn of the loop, for any tick *)

Section AnyTick.

Variable tick : M PyVal.

Lemma guarded_tick_returns (w w1 : World) (v : PyVal) :
  tick w = (Ok v, w1) -> guarded_tick tick w = (Ok tt, w1).
Proof. intros H. py_unfold. now rewrite H. Qed.

Lemma guarded_tick_catches (w w1 : World) (e : PyExn) :
  tick w = (Raise e, w1) ->
  exn_is_Exception e = true ->
  exn_str_raises e = None ->
  guarded_tick tick w
  = (Ok tt, emit (EvLog ERROR ("Error in monitor tick: " +:+ exn_str e)) w1).
Proof. intros H He Hs. py_unfold. now rewrite H, He, Hs. Qed.

(** An error that cannot be formatted: what [str(e)] raises leaves the
    handler, and nothing is logged. *)
Lemma guarded_tick_str_fails (w w1 : World) (e raised : PyExn) :
  tick w = (Raise e, w1) ->
  exn_is_Exception e = true ->
  exn_str_raises e = Some raised ->
  guarded_tick tick w = (Raise raised, w1).
Proof. intros H He Hs. py_unfold. now rewrite H, He, Hs. Qed.

Lemma guarded_tick_lets_through (w w1 : World) (e : PyExn) :
  tick w = (Raise e, w1) ->
  exn_is_Exception e = false ->
  guarded_tick tick w = (Raise e, w1).
Proof. intros H He. py_unfold. now rewrite H, He. Qed.

Lemma turn_sleeps (w w1 : World) :
  guarded_tick tick w = (Ok tt, w1) ->
  run_forever_turn tick w = (Ok tt, slept 60 w1).
Proof. intros H. unfold run_forever_turn. now rewrite (bind_ok _ _ _ _ _ H). Qed.

Lemma turn_escapes (w w1 : World) (e : PyExn) :
  guarded_tick tick w = (Raise e, w1) ->
  run_forever_turn tick w = (Raise e, w1).
Proof. intros H. unfold run_forever_turn. now rewrite (bind_raise _ _ _ _ _ H). Qed.

End AnyTick.

(** ** The loop of the monitor *)

Lemma monitor_turn (self : ExitMonitor) (w : World) :
  run_forever_turn (ExitMonitor__tick self) w = (Ok tt, after_turn w).
Proof.
  apply turn_sleeps. eapply guarded_tick_returns. apply tick_eq.
Qed.

Lemma monitor_run (self : ExitMonitor) (n : nat) (w : World) :
  ExitMonitor_run_forever_upto self n w = (Ok tt, Nat.iter n after_turn w).
Proof.
  unfold ExitMonitor_run_forever_upto. revert w.
  induction n as [| n IH]; intros w; [reflexivity |].
  cbn [run_forever_upto].
  rewrite (bind_ok _ _ _ _ _ (monitor_turn self w)), IH.
  now rewrite Nat.iter_succ_r.
Qed.

Lemma trace_after_turns (n : nat) (w : World) :
  trace (Nat.iter n after_turn w) = trace w ++ concat (replicate n turn_events).
Proof.
  revert w. induction n as [| n IH]; intros w.
  - simpl. now rewrite app_nil_r.
  - rewrite Nat.iter_succ_r, IH. cbn [replicate concat].
    unfold after_turn, slept, emit, turn_events. cbn [trace].
    now rewrite <- !app_assoc.
Qed.

Lemma later_after_turns (n : nat) (w : World) :
  later (Nat.iter n after_turn w) = drop n (later w).
Proof.
  revert w. induction n as [| n IH]; intros w; [now rewrite drop_0 |].
  rewrite Nat.iter_succ_r, IH. unfold after_turn, slept, emit. cbn [later].
  destruct (later w); cbn [tail]; [now rewrite !drop_nil | reflexivity].
Qed.

(** The tick of turn [k + 2] sees the outside the schedule holds at [k]. *)
Lemma env_after_turns (k : nat) (w : World) (e : Env) :
  later w !! k = Some e -> env (Nat.iter (S k) after_turn w) = e.
Proof.
  revert w. induction k as [| k IH]; intros w Hk.
  - cbn. unfold woken. cbn [later emit]. destruct (later w); now inversion Hk.
  - rewrite Nat.iter_succ_r. apply IH.
    unfold after_turn, slept, emit. cbn [later].
    destruct (later w); [discriminate | exact Hk].
Qed.

(** When nothing else moves the outside, [n] turns move the clock by [n]
    minutes. *)
Lemma env_after_turns_alone (n : nat) (w : World) :
  later w = [] ->
  env (Nat.iter n after_turn w) = advance_clock (60 * Z.of_nat n) (env w).
Proof.
  revert w. induction n as [| n IH]; intros w Hw.
  - simpl. now rewrite advance_clock_0.
  - rewrite Nat.iter_succ_r, IH.
    + unfold after_turn, slept, emit, woken. cbn [env later]. rewrite Hw.
      rewrite advance_clock_add. f_equal. lia.
    + unfold after_turn, slept, emit. cbn [later]. now rewrite Hw.
Qed.

(** ** [main] *)

Lemma main_runs_the_monitor (n : nat) (w : World) :
  fst (main_upto n w) = Ok tt
  /\ new_events w (snd (main_upto n w)) = concat (replicate n turn_events).
Proof.
  unfold main_upto, BinanceBybitExecutionClient_init, os_getenv, bind, ret.
  rewrite monitor_run. cbn [fst snd]. split; [reflexivity |].
  apply new_events_app, trace_after_turns.
Qed.

(** ** [Exchange.close_hedged_position] *)

(** C9: for every symbol, awaiting [Exchange.close_hedged_position] gives
    [None], sends no request to either venue, and leaves everything the outside
    holds (the ledger file, the venues' positions) as it was: all it adds to the
    world is one INFO log record. *)
Theorem close_hedged_position_only_logs
    (self : Exchange) (symbol : string) (w : World) :
  fst (Exchange_close_hedged_position self symbol w) = Ok PyNone
  /\ env (snd (Exchange_close_hedged_position self symbol w)) = env w
  /\ new_events w (snd (Exchange_close_hedged_position self symbol w))
     = [EvLog INFO ("Executing exit for " +:+ symbol)]
  /\ List.filter is_venue_call
       (new_events w (snd (Exchange_close_hedged_position self symbol w))) = [].
Proof.
  rewrite close_hedged_position_eq. cbn [fst snd].
  rewrite new_events_emit. repeat split.
Qed.

(** The order check tells a close order sent before the CLOSING record was
    written from one sent after it. *)
Example order_before_closing_is_seen :
  orders_follow_closing "BTC/USDT" false
    [EvVenueCall Binance (CreateOrder "BTC/USDT" Short 5 true);
     EvFileWrite "apps/backend/data/active_trades.json" ∅] = false.
Proof. reflexivity. Qed.

Example order_after_closing_is_accepted :
  orders_follow_closing "BTC/USDT" false
    [EvFileWrite "apps/backend/data/active_trades.json"
       {[ "hedge-1" := {| Spec.symbol := "BTC/USDT";
                          Spec.venueA := Binance;
                          Spec.sideA := Long;
                          Spec.venueB := Bybit;
                          Spec.sideB := Short;
                          Spec.openedAt := 1700000000;
                          Spec.entryFundingBias := 1;
                          Spec.state := Spec.CLOSING;
                          Spec.legCloseStatusA := Spec.PENDING;
                          Spec.legCloseStatusB := Spec.PENDING |} ]};
     EvVenueCall Binance (CreateOrder "BTC/USDT" Short 5 true)] = true.
Proof. vm_compute. reflexivity. Qed.

(** C2: for every position (named by its symbol) and every world,
    [Exchange.close_hedged_position] sends no close order before a write of the
    ledger that records the position as CLOSING: every order among the events of
    the call follows such a write. It holds because the call sends no order at
    all. *)
Theorem close_hedged_position_orders_follow_closing
    (self : Exchange) (symbol : string) (w : World) :
  orders_follow_closing symbol false
    (new_events w (snd (Exchange_close_hedged_position self symbol w))) = true
  /\ List.filter is_order
       (new_events w (snd (Exchange_close_hedged_position self symbol w))) = [].
Proof.
  rewrite close_hedged_position_eq. cbn [snd].
  rewrite new_events_emit. split; reflexivity.
Qed.

(** C3: calling [Exchange.close_hedged_position] a second time makes no venue
    call, and neither does the first call: whatever the ledger records about the
    position (CLOSED, or a leg CONFIRMED), no order is sent for it again, and
    what the ledger records stays as it was. *)
Theorem close_hedged_position_twice
    (self : Exchange) (symbol : string) (w : World) :
  let w1 := snd (Exchange_close_hedged_position self symbol w) in
  let w2 := snd (Exchange_close_hedged_position self symbol w1) in
  List.filter is_venue_call (new_events w1 w2) = []
  /\ List.filter is_venue_call (new_events w w2) = []
  /\ files (env w2) = files (env w).
Proof.
  cbv zeta. rewrite !close_hedged_position_eq. cbn [snd].
  rewrite new_events_emit.
  rewrite (new_events_app w _
             [EvLog INFO ("Executing exit for " +:+ symbol);
              EvLog INFO ("Executing exit for " +:+ symbol)]).
  - repeat split.
  - unfold emit. cbn [trace]. now rewrite <- app_assoc.
Qed.

(** ** [ExitMonitor._tick] and [ExitMonitor.run_forever] *)

(** C10: in each of the first [n] turns of the loop, for every [n], the tick
    logs its one record and the loop sleeps. The turns add nothing else to the
    trace, so no turn reads or writes the trades file, calls a venue or calls
    [Exchange.close_hedged_position]: no exit is decided or carried out,
    whatever the clock and the funding rates are at the start and become while
    the loop sleeps. *)
Theorem run_forever_never_exits_a_position
    (self : ExitMonitor) (n : nat) (w : World) :
  fst (ExitMonitor_run_forever_upto self n w) = Ok tt
  /\ new_events w (snd (ExitMonitor_run_forever_upto self n w))
     = concat (replicate n turn_events)
  /\ Forall (fun ev => is_file_read ev = false
                       /\ is_file_write ev = false
                       /\ is_venue_call ev = false
                       /\ is_exit_log ev = false)
       (new_events w (snd (ExitMonitor_run_forever_upto self n w))).
Proof.
  rewrite monitor_run. cbn [fst snd].
  rewrite (new_events_app _ _ _ (trace_after_turns n w)).
  split; [reflexivity |]. split; [reflexivity |].
  apply Forall_concat, Forall_replicate.
  repeat constructor.
Qed.

(** C6, as the spec states it, fails: not every exception raised inside a tick
    is caught and logged. A tick that is cancelled raises an exception that is
    no [Exception], and a tick may raise an error whose [str] fails: each
    leaves the loop in the first turn, with nothing logged and no sleep. *)
Lemma tick_exceptions_that_leave_the_loop :
  let w := fresh_world (outside 1700000000 1 0 5 (-5)) in
  (run_forever_upto cancelled_tick 1 w
   = (Raise {| exn_class := "CancelledError";
               exn_is_Exception := false;
               exn_str := "";
               exn_str_raises := None |}, w))
  /\ (run_forever_upto (raise unprintable_error) 1 w
      = (Raise {| exn_class := "TypeError";
                  exn_is_Exception := true;
                  exn_str := "__str__ returned non-string (type int)";
                  exn_str_raises := None |}, w))
  /\ fst (run_forever_upto cancelled_tick 1 w) <> Ok tt
  /\ fst (run_forever_upto (raise unprintable_error) 1 w) <> Ok tt.
Proof.
  cbv zeta. repeat split; discriminate.
Qed.

(** C6, amended: an error of class [Exception] raised inside a tick, whose text
    [str(e)] can be formed, does not end the loop. The turn logs "Error in
    monitor tick: " followed by [str(e)] at ERROR and goes on to the sleep, and
    the loop goes on from there with its next turn; a tick that raises nothing
    but such errors never ends the loop, whatever the number of turns. An
    exception that does not derive from [Exception] is not caught: it leaves
    the loop in the turn it is raised in. *)
Theorem run_forever_contains_tick_errors
    (tick : M PyVal) (w w1 : World) (e : PyExn) :
  tick w = (Raise e, w1) ->
  exn_is_Exception e = true ->
  exn_str_raises e = None ->
  let logged := emit (EvLog ERROR ("Error in monitor tick: " +:+ exn_str e)) w1 in
  run_forever_turn tick w = (Ok tt, slept 60 logged)
  /\ (forall n : nat,
         run_forever_upto tick (S n) w = run_forever_upto tick n (slept 60 logged))
  /\ ((forall w0 e0 w0',
          tick w0 = (Raise e0, w0') ->
          exn_is_Exception e0 = true /\ exn_str_raises e0 = None) ->
      forall (n : nat) (w0 : World), fst (run_forever_upto tick n w0) = Ok tt)
  /\ (forall w0 e0 w0',
         tick w0 = (Raise e0, w0') ->
         exn_is_Exception e0 = false ->
         forall n : nat, run_forever_upto tick (S n) w0 = (Raise e0, w0')).
Proof.
  intros Ht He Hs. cbv zeta.
  assert (Hturn : run_forever_turn tick w
                  = (Ok tt, slept 60
                              (emit (EvLog ERROR ("Error in monitor tick: " +:+ exn_str e)) w1))).
  { apply turn_sleeps. now apply guarded_tick_catches. }
  split; [exact Hturn |]. split; [| split].
  - intros n. cbn [run_forever_upto]. now rewrite (bind_ok _ _ _ _ _ Hturn).
  - intros Herr. induction n as [| n IH]; intros w0; [reflexivity |].
    cbn [run_forever_upto].
    destruct (tick w0) as [[v | e0] w0'] eqn:Ht0.
    + rewrite (bind_ok _ _ w0 (slept 60 w0') tt); [apply IH |].
      eapply turn_sleeps, guarded_tick_returns, Ht0.
    + destruct (Herr _ _ _ Ht0) as [He0 Hs0].
      rewrite (bind_ok _ _ w0
                 (slept 60 (emit (EvLog ERROR ("Error in monitor tick: " +:+ exn_str e0)) w0'))
                 tt); [apply IH |].
      apply turn_sleeps. now apply guarded_tick_catches.
  - intros w0 e0 w0' Ht0 He0 n. cbn [run_forever_upto].
    apply bind_raise, turn_escapes. now apply guarded_tick_lets_through.
Qed.

(** A tick that cannot open the trades file: the turn logs the error and
    sleeps, the loop goes on, and three turns complete. *)
Lemma failing_tick_is_contained :
  let w := fresh_world (outside 1700000000 1 0 5 (-5)) in
  run_forever_turn failing_tick w
  = (Ok tt,
     {| env := outside 1700000060 1 0 5 (-5);
        later := [];
        trace := [EvLog ERROR "Error in monitor tick: [Errno 2] No such file or directory";
                  EvSleep 60] |})
  /\ new_events w (snd (run_forever_upto failing_tick 2 w))
     = [EvLog ERROR "Error in monitor tick: [Errno 2] No such file or directory"; EvSleep 60;
        EvLog ERROR "Error in monitor tick: [Errno 2] No such file or directory"; EvSleep 60]
  /\ fst (run_forever_upto failing_tick 3 w) = Ok tt.
Proof.
  cbv zeta.
  destruct (run_forever_contains_tick_errors failing_tick
              (fresh_world (outside 1700000000 1 0 5 (-5)))
              (fresh_world (outside 1700000000 1 0 5 (-5)))
              {| exn_class := "FileNotFoundError";
                 exn_is_Exception := true;
                 exn_str := "[Errno 2] No such file or directory";
                 exn_str_raises := None |}
              eq_refl eq_refl eq_refl) as (Hturn & Hnext & Hrun & _).
  split; [rewrite Hturn; reflexivity |]. split.
  - rewrite Hnext. reflexivity.
  - apply Hrun. intros w0 e0 w0' H. inversion H. split; reflexivity.
Defined.

(** What is not an error is not contained: a tick cancelled from outside ends
    the loop before the sleep. *)
Lemma cancelled_tick_ends_the_loop (n : nat) (w : World) :
  run_forever_upto cancelled_tick (S n) w
  = (Raise {| exn_class := "CancelledError";
              exn_is_Exception := false;
              exn_str := "";
              exn_str_raises := None |}, w).
Proof. reflexivity. Qed.

(** An error that cannot be formatted is not contained either: what its
    [__str__] raises leaves the handler and the loop, with nothing logged. *)
Lemma unformattable_error_ends_the_loop
    (tick : M PyVal) (w w1 : World) (e raised : PyExn) (n : nat) :
  tick w = (Raise e, w1) ->
  exn_is_Exception e = true ->
  exn_str_raises e = Some raised ->
  run_forever_upto tick (S n) w = (Raise raised, w1).
Proof.
  intros Ht He Hs. cbn [run_forever_upto].
  apply bind_raise, turn_escapes. now apply (guarded_tick_str_fails _ _ _ e).
Qed.

Lemma sleeps_of_turns (n : nat) :
  sleeps_of (concat (replicate n turn_events)) = replicate n 60.
Proof.
  induction n as [| n IH]; [reflexivity |].
  cbn [replicate concat]. unfold sleeps_of in *.
  rewrite flat_map_app, IH. reflexivity.
Qed.

(** C7, as the spec states it, fails: with [tickIntervalSeconds] configured as
    30, the loop sleeps 60 seconds after each of its first two ticks. *)
Lemma sleep_is_not_the_configured_interval :
  let w := fresh_world (outside 1700000000 1 0 5 (-5)) in
  Spec.tickIntervalSeconds (config (env w)) = 30
  /\ sleeps_of (new_events w (snd (ExitMonitor_run_forever_upto the_monitor 2 w))) = [60; 60]
  /\ sleeps_of (new_events w (snd (ExitMonitor_run_forever_upto the_monitor 2 w)))
     <> replicate 2 (Spec.tickIntervalSeconds (config (env w))).
Proof.
  cbv zeta. split; [reflexivity |].
  assert (H : sleeps_of
                (new_events (fresh_world (outside 1700000000 1 0 5 (-5)))
                   (snd (ExitMonitor_run_forever_upto the_monitor 2
                           (fresh_world (outside 1700000000 1 0 5 (-5))))))
              = [60; 60]) by reflexivity.
  split; [exact H |].
  rewrite H. discriminate.
Qed.

(** C7, amended: between one tick and the next the loop sleeps the constant 60
    seconds, with a fixed delay. After a tick that returned or whose error was
    caught, however long it took and whatever is configured, the turn asks for a
    sleep of exactly 60 seconds (so that, when nothing else moves the clock, the
    clock after the turn is the clock after the tick plus 60); and the sleeps of
    the first [n] turns of the monitor are [n] times 60. *)
Theorem turn_sleeps_sixty_after_any_tick (tick : M PyVal) (w w1 : World) :
  guarded_tick tick w = (Ok tt, w1) ->
  run_forever_turn tick w = (Ok tt, slept 60 w1)
  /\ new_events w1 (snd (run_forever_turn tick w)) = [EvSleep 60]
  /\ (later w1 = [] ->
      clock (env (snd (run_forever_turn tick w))) = clock (env w1) + 60)
  /\ (forall (self : ExitMonitor) (n : nat) (w0 : World),
         sleeps_of (new_events w0 (snd (ExitMonitor_run_forever_upto self n w0)))
         = replicate n 60).
Proof.
  intros Hg. rewrite (turn_sleeps _ _ _ Hg). cbn [snd].
  split; [reflexivity |]. split; [now apply new_events_app |].
  split.
  - intros Hl. unfold slept, woken. cbn [env]. now rewrite Hl.
  - intros self n w0. rewrite monitor_run. cbn [snd].
    rewrite (new_events_app _ _ _ (trace_after_turns n w0)).
    apply sleeps_of_turns.
Qed.

(** After a tick of 45 seconds the turn still sleeps 60, with 30 configured. *)
Lemma slow_tick_is_followed_by_sixty_seconds :
  let w := fresh_world (outside 1700000000 1 0 5 (-5)) in
  guarded_tick slow_tick w = (Ok tt, with_env (outside 1700000045 1 0 5 (-5)) w)
  /\ new_events (with_env (outside 1700000045 1 0 5 (-5)) w)
       (snd (run_forever_turn slow_tick w)) = [EvSleep 60]
  /\ clock (env (snd (run_forever_turn slow_tick w))) = 1700000045 + 60.
Proof.
  cbv zeta.
  assert (Hg : guarded_tick slow_tick (fresh_world (outside 1700000000 1 0 5 (-5)))
               = (Ok tt, with_env (outside 1700000045 1 0 5 (-5))
                           (fresh_world (outside 1700000000 1 0 5 (-5)))))
    by reflexivity.
  destruct (turn_sleeps_sixty_after_any_tick _ _ _ Hg) as (_ & Hev & Hclock & _).
  split; [exact Hg |]. split; [exact Hev | exact (Hclock eq_refl)].
Defined.

(** ** The exit rules *)

Lemma tick_decides_no_exit (self : ExitMonitor) (w : World) :
  exit_decided w (ExitMonitor__tick self w) = false.
Proof.
  rewrite tick_eq. unfold exit_decided. cbn [fst snd].
  now rewrite new_events_emit.
Qed.

(** C5: a turn of the loop decides a funding-flip exit only when the flipped
    sign was observed at the tick before and at its own tick (it decides no
    exit at all); and when a flip is observed at one tick and the entry sign
    again at the next, neither tick triggers an exit and nothing of the flip is
    kept: a flip observed at the tick after, the first of a new run, triggers
    no exit either. The ticks are those of three turns of [run_forever], the
    outside moving from [e1] to [e2] to [e3] while the loop sleeps. *)
Theorem flip_then_reversion_triggers_no_exit
    (self : ExitMonitor) (p : Spec.HedgePosition) (e1 e2 e3 : Env)
    (rest : list Env) (before : list Event) :
  flip_observed p e1 = true ->
  flip_observed p e2 = false ->
  flip_observed p e3 = true ->
  let w := {| env := e1; later := e2 :: e3 :: rest; trace := before |} in
  let after (n : nat) := snd (ExitMonitor_run_forever_upto self n w) in
  (forall (ea eb : Env) (next : list Env) (tr : list Event),
      let w0 := {| env := ea; later := eb :: next; trace := tr |} in
      implb
        (existsb is_exit_action
           (new_events (snd (ExitMonitor_run_forever_upto self 1 w0))
              (snd (ExitMonitor_run_forever_upto self 2 w0))))
        (flip_observed p ea && flip_observed p eb) = true)
  /\ (env (after 0%nat) = e1 /\ env (after 1%nat) = e2 /\ env (after 2%nat) = e3)
  /\ fst (ExitMonitor_run_forever_upto self 3 w) = Ok tt
  /\ new_events w (after 3%nat) = concat (replicate 3 turn_events)
  /\ existsb is_exit_action (new_events w (after 3%nat)) = false.
Proof.
  intros _ _ _. cbv zeta. split.
  - intros ea eb next tr. rewrite !monitor_run. cbn [snd].
    rewrite (new_events_app _ _ turn_events); [reflexivity |].
    rewrite !trace_after_turns. cbn [replicate concat].
    now rewrite !app_nil_r, <- app_assoc.
  - rewrite !monitor_run. cbn [fst snd].
    rewrite (new_events_app _ _ _ (trace_after_turns 3 _)).
    repeat split.
Qed.

(** The BTC/USDT hedge, entered on a positive differential: a negative one at
    the first tick, a positive one at the second, a negative one at the third. *)
Lemma flip_then_reversion_on_the_btc_hedge :
  let e1 := outside 1700000060 (-3) 2 5 (-5) in
  let e2 := outside 1700000120 4 1 5 (-5) in
  let e3 := outside 1700000180 (-3) 2 5 (-5) in
  let w := {| env := e1; later := [e2; e3]; trace := [] |} in
  (flip_observed btc_hedge e1 = true
   /\ flip_observed btc_hedge e2 = false
   /\ flip_observed btc_hedge e3 = true)
  /\ fst (ExitMonitor_run_forever_upto the_monitor 3 w) = Ok tt
  /\ existsb is_exit_action
       (new_events w (snd (ExitMonitor_run_forever_upto the_monitor 3 w))) = false.
Proof.
  cbv zeta.
  destruct (flip_then_reversion_triggers_no_exit the_monitor btc_hedge
              (outside 1700000060 (-3) 2 5 (-5))
              (outside 1700000120 4 1 5 (-5))
              (outside 1700000180 (-3) 2 5 (-5))
              [] [] eq_refl eq_refl eq_refl)
    as (_ & _ & Hok & _ & Hno).
  split; [repeat split |]. split; [exact Hok | exact Hno].
Defined.

(** C4, where the code leaves the claim: one hour after the hedge was opened,
    and at the very second the ten-minute holding window ends, the window has
    elapsed and the tick gives [None] and logs its one record: it decides no
    time exit. *)
Theorem tick_after_the_holding_window :
  let late := fresh_world (outside (1700000000 + 3600) 1 0 5 (-5)) in
  let edge := fresh_world (outside (1700000000 + 600) 1 0 5 (-5)) in
  (window_elapsed btc_hedge (env late) = true
   /\ ExitMonitor__tick the_monitor late
      = (Ok PyNone, emit (EvLog INFO "Checking trades for exit conditions...") late)
   /\ exit_decided late (ExitMonitor__tick the_monitor late) = false)
  /\ (window_elapsed btc_hedge (env edge) = true
      /\ ExitMonitor__tick the_monitor edge
         = (Ok PyNone, emit (EvLog INFO "Checking trades for exit conditions...") edge)
      /\ exit_decided edge (ExitMonitor__tick the_monitor edge) = false).
Proof.
  cbv zeta. repeat split; apply tick_decides_no_exit.
Qed.

(** With the Binance leg of the hedge flat and the Bybit leg still open,
    [Exchange.close_hedged_position] gives [None] and logs its one record; it
    sends no order, and the trades file still holds the hedge as OPEN with both
    legs PENDING. *)
Lemma close_hedged_position_on_a_half_closed_hedge :
  let w := fresh_world (outside 1700000900 1 0 0 (-5)) in
  let r := Exchange_close_hedged_position (exchange the_monitor) "BTC/USDT" w in
  (position_size (env w) Binance "BTC/USDT" = 0
   /\ position_size (env w) Bybit "BTC/USDT" = -5)
  /\ r = (Ok PyNone,
          {| env := env w;
             later := [];
             trace := [EvLog INFO "Executing exit for BTC/USDT"] |})
  /\ files (env (snd r)) !! trades_file the_monitor = Some {[ "hedge-1" := btc_hedge ]}
  /\ Spec.state btc_hedge = Spec.OPEN.
Proof.
  cbv zeta. repeat split.
Qed.

(** ** The ledger *)

(** C8: saving a position and then loading the ledger gives the saved record
    back, equal in all its fields, under the position's identifier, whatever
    the ledger held before. *)
Theorem ledger_round_trip
    (position_id : Spec.HedgePosition -> string) (path : string)
    (p : Spec.HedgePosition) (w : World) :
  exists content : Ledger,
    fst ((HedgeLedger_save position_id path p ;; HedgeLedger_load path) w) = Ok content
    /\ content !! position_id p = Some p.
Proof.
  unfold bind, HedgeLedger_save, HedgeLedger_load, set_file. cbn [env files fst].
  rewrite lookup_insert_eq. cbn [fst].
  eexists. split; [reflexivity |].
  apply lookup_insert_eq.
Qed.

(** * Further properties of the code *)

(** ** [BinanceBybitExecutionClient.__init__] *)

(** X1: when none of the four credential variables is set, the client is
    still constructed: nothing is raised, every key and secret is [None], and
    the world is as it was. *)
Theorem client_without_credentials (w : World) :
  environ (env w) !! "BINANCE_API_KEY" = None ->
  environ (env w) !! "BINANCE_API_SECRET" = None ->
  environ (env w) !! "BYBIT_API_KEY" = None ->
  environ (env w) !! "BYBIT_API_SECRET" = None ->
  exists c,
    BinanceBybitExecutionClient_init w = (Ok c, w)
    /\ apiKey (binance c) = None /\ secret (binance c) = None
    /\ apiKey (bybit c) = None /\ secret (bybit c) = None.
Proof.
  intros H1 H2 H3 H4.
  unfold BinanceBybitExecutionClient_init, os_getenv, bind, ret.
  rewrite H1, H2, H3, H4. eexists. repeat split.
Qed.

Lemma client_without_credentials_in_an_empty_environment :
  exists c,
    BinanceBybitExecutionClient_init
      (fresh_world (with_environ ∅ (outside 0 0 0 0 0)))
    = (Ok c, fresh_world (with_environ ∅ (outside 0 0 0 0 0)))
    /\ apiKey (binance c) = None /\ secret (binance c) = None
    /\ apiKey (bybit c) = None /\ secret (bybit c) = None.
Proof.
  apply client_without_credentials; reflexivity.
Defined.

(** X2: the client is made of the four credential variables and of nothing
    else the world holds. In two worlds that agree on these variables the same
    client is constructed, with the Binance variables in the Binance client and
    the Bybit variables in the Bybit client, and constructing it leaves each
    world as it was: no event, no call of a venue. *)
Theorem client_reads_four_variables (w1 w2 : World) :
  (forall name, name ∈ credential_variables ->
                environ (env w1) !! name = environ (env w2) !! name) ->
  fst (BinanceBybitExecutionClient_init w1) = fst (BinanceBybitExecutionClient_init w2)
  /\ snd (BinanceBybitExecutionClient_init w1) = w1
  /\ snd (BinanceBybitExecutionClient_init w2) = w2
  /\ exists c,
      fst (BinanceBybitExecutionClient_init w1) = Ok c
      /\ ccxt_venue (binance c) = Binance
      /\ apiKey (binance c) = environ (env w1) !! "BINANCE_API_KEY"
      /\ secret (binance c) = environ (env w1) !! "BINANCE_API_SECRET"
      /\ ccxt_venue (bybit c) = Bybit
      /\ apiKey (bybit c) = environ (env w1) !! "BYBIT_API_KEY"
      /\ secret (bybit c) = environ (env w1) !! "BYBIT_API_SECRET".
Proof.
  intros Hsame.
  unfold BinanceBybitExecutionClient_init, os_getenv, bind, ret. cbn [fst snd].
  rewrite <- !Hsame by (unfold credential_variables; set_solver).
  repeat split. eexists. repeat split.
Qed.

Lemma client_ignores_other_variables :
  let w1 := fresh_world (outside 0 0 0 0 0) in
  let w2 := fresh_world
              (with_environ {[ "BINANCE_API_KEY" := "k1"; "HOME" := "/root" ]}
                 (outside 60 1 2 3 4)) in
  fst (BinanceBybitExecutionClient_init w1) = fst (BinanceBybitExecutionClient_init w2)
  /\ fst (BinanceBybitExecutionClient_init w2) = Ok the_client.
Proof.
  cbv zeta.
  destruct (client_reads_four_variables
              (fresh_world (outside 0 0 0 0 0))
              (fresh_world
                 (with_environ {[ "BINANCE_API_KEY" := "k1"; "HOME" := "/root" ]}
                    (outside 60 1 2 3 4)))) as (Hsame & _).
  - intros name Hname. unfold credential_variables in Hname.
    repeat (apply elem_of_cons in Hname as [-> | Hname]; [vm_compute; reflexivity |]).
    now apply elem_of_nil in Hname.
  - split; [exact Hsame |]. vm_compute. reflexivity.
Defined.

(** ** [main] *)

Lemma no_venue_call_in_turns (n : nat) :
  existsb is_venue_call (concat (replicate n turn_events)) = false.
Proof.
  induction n as [| n IH]; [reflexivity |].
  cbn [replicate concat]. now rewrite existsb_app, IH.
Qed.

(** X3: [main] constructs the two clients and never calls them. Whatever the
    environment holds, with credentials or without, the first [n] turns of its
    loop complete, and all the program does is log the tick's record and sleep
    60 seconds, [n] times over. *)
Theorem main_monitors_whatever_the_environment (n : nat) (w : World) :
  fst (main_upto n w) = Ok tt
  /\ new_events w (snd (main_upto n w)) = concat (replicate n turn_events)
  /\ existsb is_venue_call (new_events w (snd (main_upto n w))) = false
  /\ (forall vars : gmap string string,
         new_events (with_env (with_environ vars (env w)) w)
           (snd (main_upto n (with_env (with_environ vars (env w)) w)))
         = new_events w (snd (main_upto n w))).
Proof.
  assert (Hev : forall w0, new_events w0 (snd (main_upto n w0))
                           = concat (replicate n turn_events)).
  { intros w0. unfold main_upto, BinanceBybitExecutionClient_init, os_getenv, bind, ret.
    rewrite monitor_run. cbn [snd]. apply new_events_app, trace_after_turns. }
  split.
  - unfold main_upto, BinanceBybitExecutionClient_init, os_getenv, bind, ret.
    now rewrite monitor_run.
  - rewrite !Hev. split; [reflexivity |]. split.
    + apply no_venue_call_in_turns.
    + intros vars. apply Hev.
Qed.

(** ** [ExitMonitor.run_forever], for any tick *)

(** X4: an exception that does not derive from [Exception] is not caught by
    the loop. When the tick raises one, the turn ends there: no ERROR record is
    logged, the sleep is not reached, no later turn runs, and the exception
    leaves [run_forever] with the world as the tick left it. *)
Theorem signal_ends_the_loop
    (tick : M PyVal) (w w1 : World) (e : PyExn) (n : nat) :
  tick w = (Raise e, w1) ->
  exn_is_Exception e = false ->
  run_forever_upto tick (S n) w = (Raise e, w1).
Proof.
  intros Ht He. cbn [run_forever_upto].
  apply bind_raise. unfold run_forever_turn. apply bind_raise.
  unfold guarded_tick, try_except_Exception, bind. now rewrite Ht, He.
Qed.

Lemma keyboard_interrupt_ends_the_loop :
  run_forever_upto
    (raise {| exn_class := "KeyboardInterrupt"; exn_is_Exception := false; exn_str := ""; exn_str_raises := None |})
    4 (fresh_world (outside 1700000000 1 0 5 (-5)))
  = (Raise {| exn_class := "KeyboardInterrupt"; exn_is_Exception := false; exn_str := ""; exn_str_raises := None |},
     fresh_world (outside 1700000000 1 0 5 (-5))).
Proof.
  apply signal_ends_the_loop; reflexivity.
Defined.

Lemma run_forever_upto_succ (tick : M PyVal) (k : nat) (w w1 wk : World) :
  run_forever_turn tick w = (Ok tt, w1) ->
  run_forever_upto tick k w1 = (Ok tt, wk) ->
  run_forever_upto tick (S k) w = (Ok tt, wk).
Proof.
  intros Hturn Hrun. cbn [run_forever_upto].
  now rewrite (bind_ok _ _ _ _ _ Hturn).
Qed.

(** X8: a tick that fails is tried again after every sleep, at the same pace
    and without end. When the tick does nothing but raise an error [e] of class
    [Exception] whose text [str(e)] can be formed, the first [n] turns complete,
    for every [n], and each of them logs the error once and sleeps 60 seconds:
    the delay does not grow and the failures are not counted. *)
Theorem failing_tick_is_retried_every_minute (e : PyExn) (n : nat) (w : World) :
  exn_is_Exception e = true ->
  exn_str_raises e = None ->
  fst (run_forever_upto (raise e) n w) = Ok tt
  /\ new_events w (snd (run_forever_upto (raise e) n w))
     = concat (replicate n (failed_turn_events e)).
Proof.
  intros He Hs.
  assert (Hturn : forall w0,
             run_forever_turn (raise e) w0
             = (Ok tt, slept 60 (emit (EvLog ERROR ("Error in monitor tick: " +:+ exn_str e)) w0))).
  { intros w0. apply turn_sleeps. now apply guarded_tick_catches. }
  assert (Hrun : forall w0,
             exists w', run_forever_upto (raise e) n w0 = (Ok tt, w')
                        /\ trace w' = trace w0 ++ concat (replicate n (failed_turn_events e))).
  { induction n as [| n IH]; intros w0.
    - exists w0. split; [reflexivity |]. cbn. now rewrite app_nil_r.
    - destruct (IH (slept 60 (emit (EvLog ERROR ("Error in monitor tick: " +:+ exn_str e)) w0)))
        as (w' & Hrun & Htrace).
      exists w'. split.
      + exact (run_forever_upto_succ _ _ _ _ _ (Hturn w0) Hrun).
      + rewrite Htrace. cbn [replicate concat].
        unfold slept, emit, failed_turn_events. cbn [trace].
        now rewrite <- !app_assoc. }
  destruct (Hrun w) as (w' & Hw' & Htrace).
  rewrite Hw'. cbn [fst snd]. split; [reflexivity |].
  now apply new_events_app.
Qed.

Lemma missing_file_is_retried_every_minute :
  fst (run_forever_upto failing_tick 3 (fresh_world (outside 1700000000 1 0 5 (-5)))) = Ok tt
  /\ new_events (fresh_world (outside 1700000000 1 0 5 (-5)))
       (snd (run_forever_upto failing_tick 3 (fresh_world (outside 1700000000 1 0 5 (-5)))))
     = [EvLog ERROR "Error in monitor tick: [Errno 2] No such file or directory"; EvSleep 60;
        EvLog ERROR "Error in monitor tick: [Errno 2] No such file or directory"; EvSleep 60;
        EvLog ERROR "Error in monitor tick: [Errno 2] No such file or directory"; EvSleep 60].
Proof.
  exact (failing_tick_is_retried_every_minute
           {| exn_class := "FileNotFoundError";
              exn_is_Exception := true;
              exn_str := "[Errno 2] No such file or directory";
              exn_str_raises := None |}
           3 (fresh_world (outside 1700000000 1 0 5 (-5))) eq_refl eq_refl).
Defined.

(** ** [Exchange.close_hedged_position], read from the log *)

Lemma append_inj_r (p a b : string) : p +:+ a = p +:+ b -> a = b.
Proof.
  induction p as [| c p IH]; cbn; [easy |].
  intros H. apply IH. now inversion H.
Qed.

(** X9: the record [Exchange.close_hedged_position] logs names the symbol it
    was called for: two calls, on any exchanges and in any worlds, add the same
    events exactly when their symbols are the same string. *)
Theorem exit_record_names_the_symbol
    (self1 self2 : Exchange) (symbol1 symbol2 : string) (w1 w2 : World) :
  new_events w1 (snd (Exchange_close_hedged_position self1 symbol1 w1))
  = new_events w2 (snd (Exchange_close_hedged_position self2 symbol2 w2))
  <-> symbol1 = symbol2.
Proof.
  rewrite !close_hedged_position_eq. cbn [snd]. rewrite !new_events_emit.
  split.
  - intros H. inversion H as [Hmsg]. exact (append_inj_r _ _ _ Hmsg).
  - now intros ->.
Qed.

(** ** main.py, at import *)

(** X6: after the import the parent directory is on [sys.path], whether it was
    there before or not; the entries of [sys.path] are the old ones and the
    parent directory; and importing the module again changes nothing more. *)
Theorem sys_path_holds_the_parent_dir (parent_dir : string) (sys_path : list string) :
  parent_dir ∈ add_to_sys_path parent_dir sys_path
  /\ (forall d, d ∈ add_to_sys_path parent_dir sys_path <-> d ∈ sys_path \/ d = parent_dir)
  /\ add_to_sys_path parent_dir (add_to_sys_path parent_dir sys_path)
     = add_to_sys_path parent_dir sys_path.
Proof.
  unfold add_to_sys_path.
  destruct (bool_decide (parent_dir ∈ sys_path)) eqn:Hin.
  - apply bool_decide_eq_true in Hin. rewrite bool_decide_eq_true_2 by exact Hin.
    split; [exact Hin |]. split; [| reflexivity].
    intros d. split; [now left | now intros [H | ->]].
  - rewrite bool_decide_eq_true_2 by set_solver.
    split; [set_solver |]. split; [| reflexivity].
    intros d. rewrite elem_of_app, list_elem_of_singleton. tauto.
Qed.

(** X7: the import leaves the search order of the directories already on
    [sys.path] as it was, whatever the list holds: the old list is a prefix of
    the new one, which is at most one entry longer, and a directory that was
    already there is not added a second time; so a list without repetition
    stays without repetition. *)
Theorem sys_path_keeps_its_order (parent_dir : string) (sys_path : list string) :
  sys_path `prefix_of` add_to_sys_path parent_dir sys_path
  /\ (length (add_to_sys_path parent_dir sys_path) <= S (length sys_path))%nat
  /\ (parent_dir ∈ sys_path -> add_to_sys_path parent_dir sys_path = sys_path)
  /\ (NoDup sys_path -> NoDup (add_to_sys_path parent_dir sys_path)).
Proof.
  unfold add_to_sys_path.
  destruct (bool_decide (parent_dir ∈ sys_path)) eqn:Hin.
  - repeat split; [reflexivity | lia | exact id].
  - apply bool_decide_eq_false in Hin. repeat split.
    + now exists [parent_dir].
    + rewrite length_app. cbn. lia.
    + intros H. contradiction.
    + intros Hnd. apply NoDup_app. repeat split; [exact Hnd | | apply NoDup_singleton].
      intros d Hd Hd'. apply list_elem_of_singleton in Hd'. now subst.
Qed.

(** When the script is run, its own directory is first on [sys.path]: the
    package directory is added behind what is there; and a list that holds the
    same directory twice is a prefix of the result all the same. *)
Lemma sys_path_of_a_script_run :
  add_to_sys_path "/opt/bot" ["/opt/bot/market_data_service"; "/usr/lib/python3.11"]
  = ["/opt/bot/market_data_service"; "/usr/lib/python3.11"; "/opt/bot"]
  /\ NoDup (add_to_sys_path "/opt/bot"
              ["/opt/bot/market_data_service"; "/usr/lib/python3.11"])
  /\ ["/usr/lib"; "/usr/lib"] `prefix_of` add_to_sys_path "/opt/bot" ["/usr/lib"; "/usr/lib"].
Proof.
  split; [reflexivity |]. split.
  - apply (sys_path_keeps_its_order "/opt/bot"
             ["/opt/bot/market_data_service"; "/usr/lib/python3.11"]).
    apply (bool_decide_unpack _). vm_compute. exact I.
  - apply (sys_path_keeps_its_order "/opt/bot" ["/usr/lib"; "/usr/lib"]).
Defined.

(** ** [ExitMonitor.__init__] and what the monitor keeps *)

(** X10: the monitor never uses what its constructor stored. Monitors built on
    any two exchanges, with any clients and credentials, do the same in the
    same world, turn after turn: the exchange and the path of the trades file
    are kept and never read. *)
Theorem monitor_ignores_its_exchange
    (exchange1 exchange2 : Exchange) (n : nat) (w : World) :
  ExitMonitor_run_forever_upto (ExitMonitor_init exchange1) n w
  = ExitMonitor_run_forever_upto (ExitMonitor_init exchange2) n w
  /\ trades_file (ExitMonitor_init exchange1) = trades_file (ExitMonitor_init exchange2)
  /\ exchange (ExitMonitor_init exchange1) = exchange1.
Proof.
  rewrite !monitor_run. repeat split.
Qed.

(** ** The unwind of the spec *)

Lemma persisted_after_save
    (position_id : Spec.HedgePosition -> string) (path : string)
    (p : Spec.HedgePosition) (w : World) :
  HedgeLedger_save position_id path p w
  = (Ok tt, snd (HedgeLedger_save position_id path p w))
  /\ persisted path (position_id p) (env (snd (HedgeLedger_save position_id path p w)))
     = Some p
  /\ exists content : Ledger,
      new_events w (snd (HedgeLedger_save position_id path p w))
      = [EvFileWrite path content]
      /\ content !! position_id p = Some p.
Proof.
  unfold HedgeLedger_save, persisted, set_file. cbn [snd env files trace].
  split; [reflexivity |]. split.
  - rewrite lookup_insert_eq. cbn. apply lookup_insert_eq.
  - eexists. split; [now apply new_events_app |]. apply lookup_insert_eq.
Qed.


